(** * The LLMPL demo launcher ([mvp/run_demo.py])

    A shallow embedding of the launcher script together with the part of
    its runtime that it calls into: [pathlib] paths, [os.path.realpath],
    [subprocess.run] and the interpreter's [SystemExit] handling.  The
    operating system is a record of oracles ([World]); everything the
    script computes is a function of it. *)

From Stdlib Require Import String Ascii List ZArith Bool Lia.
Import ListNotations.

Local Open Scope string_scope.
Local Open Scope list_scope.

(** String concatenation, kept apart from [++] on lists. *)
Infix "+++" := String.append (right associativity, at level 60).

(** ** Strings: [str.split("/")] and ["/".join] *)

Definition sep : ascii := "/"%char.

(** [split s] is Python's [s.split("/")]: it never returns the empty list. *)
Fixpoint split (s : string) : list string :=
  match s with
  | EmptyString => [""]
  | String c s' =>
      if Ascii.eqb c sep then "" :: split s'
      else match split s' with
           | [] => [String c ""]
           | h :: t => String c h :: t
           end
  end.

Definition join (ps : list string) : string := String.concat "/" ps.

Definition startswith_sep (s : string) : bool :=
  match s with
  | String c _ => Ascii.eqb c sep
  | EmptyString => false
  end.

(** ** [pathlib.PurePosixPath] *)

(** A parsed path: whether it has a root, and its components.  A path
    that starts with exactly two slashes keeps the root ["//"] in
    pathlib; [realpath] collapses it to ["/"], and the launcher resolves
    before any other use, so the model keeps one kind of root. *)
Record PurePath : Type := mkPath {
  absolute : bool;
  parts : list string
}.

Definition curdir : string := ".".
Definition pardir : string := "..".

Definition is_component (n : string) : bool :=
  negb (String.eqb n "" || String.eqb n curdir).

(** [Path(s)]: empty components and ["."] are dropped, [".."] is kept. *)
Definition Path (s : string) : PurePath :=
  {| absolute := startswith_sep s;
     parts := filter is_component (split s) |}.

(** [str(p)] *)
Definition str (p : PurePath) : string :=
  if absolute p then "/" +++ join (parts p)
  else match parts p with
       | [] => "."
       | _ => join (parts p)
       end.

(** [p.parent]: the parent of a path without components is the path. *)
Definition parent (p : PurePath) : PurePath :=
  {| absolute := absolute p; parts := removelast (parts p) |}.

(** [p / s] *)
Definition truediv (p : PurePath) (s : string) : PurePath :=
  let q := Path s in
  if absolute q then q
  else {| absolute := absolute p; parts := parts p ++ parts q |}.

Notation "p </> s" := (truediv p s) (at level 40, left associativity).

(** ** The file system seen through [os.lstat] *)

Inductive Node : Type :=
| Missing
| Regular
| Directory
| Symlink (target : string).

Definition is_symlink (n : Node) : bool :=
  match n with
  | Symlink _ => true
  | _ => false
  end.

(** [os.path.normpath] on the components of an absolute path: [".."] is
    collapsed lexically and is dropped at the root. *)
Fixpoint normparts (acc rest : list string) : list string :=
  match rest with
  | [] => acc
  | n :: rest' =>
      if String.eqb n pardir then normparts (removelast acc) rest'
      else normparts (acc ++ [n]) rest'
  end.

Section Realpath.

(** [os.lstat] on the text of an absolute path. *)
Variable lstat : string -> Node.

(** [posixpath._joinrealpath]: [path] is resolved already, [rest] is
    still to be walked.  The result is the pair [(path, ok)] of the
    Python function.  [fuel] bounds the nesting of links inside link
    targets and stands for the [seen] table: when it runs out the link
    is left unresolved with [ok = False], which is what Python does
    with a link it is already resolving. *)
Fixpoint joinrealpath (fuel : nat) : list string -> list string -> list string * bool :=
  fix loop (path rest : list string) {struct rest} : list string * bool :=
    match rest with
    | [] => (path, true)
    | name :: rest' =>
        if String.eqb name pardir then loop (removelast path) rest'
        else
          let newpath := path ++ [name] in
          match lstat (str (mkPath true newpath)) with
          | Symlink target =>
              match fuel with
              | O => (newpath ++ rest', false)
              | S fuel' =>
                  let t := Path target in
                  let start := if absolute t then [] else path in
                  match joinrealpath fuel' start (parts t) with
                  | (path', true) => loop path' rest'
                  | (path', false) => (path' ++ rest', false)
                  end
              end
          | _ => loop newpath rest'
          end
    end.

End Realpath.

(** The kernel follows at most this many nested links ([ELOOP]). *)
Definition MAXSYMLINKS : nat := 40.

(** ** The world outside the launcher *)

(** How [subprocess.Popen] wires one standard stream of the child:
    [None] in Python leaves the stream inherited. *)
Inductive Stdio : Type :=
| Inherit
| PIPE.

(** What [subprocess.run] hands to [Popen]. *)
Record SpawnRequest : Type := mkRequest {
  sp_args : list string;
  sp_cwd : option string;
  sp_stdin : Stdio;
  sp_stdout : Stdio;
  sp_stderr : Stdio
}.

(** How a child that was created comes to its end. *)
Inductive Termination : Type :=
| Exits (status : Z)
| KilledBy (signal : Z)
| NeverTerminates.

(** What the operating system makes of a request: it refuses to create
    the child, or creates it; [out] and [err] are what the child writes
    to its standard output and standard error. *)
Inductive ChildOutcome : Type :=
| SpawnFails (errno : Z)
| Spawned (fate : Termination) (out err : string).

Record World : Type := mkWorld {
  w_file : string;                          (* [__file__] of the launcher *)
  w_cwd : string;                           (* [os.getcwd()] *)
  w_executable : string;                    (* [sys.executable] *)
  w_argv : list string;                     (* [sys.argv[1:]] *)
  w_lstat : string -> Node;                 (* [os.lstat] *)
  w_spawn : SpawnRequest -> ChildOutcome    (* fork, exec and wait *)
}.

Definition with_cwd (w : World) (d : string) : World :=
  {| w_file := w_file w; w_cwd := d; w_executable := w_executable w;
     w_argv := w_argv w; w_lstat := w_lstat w; w_spawn := w_spawn w |}.

Definition with_file (w : World) (f : string) : World :=
  {| w_file := f; w_cwd := w_cwd w; w_executable := w_executable w;
     w_argv := w_argv w; w_lstat := w_lstat w; w_spawn := w_spawn w |}.

Definition with_argv (w : World) (a : list string) : World :=
  {| w_file := w_file w; w_cwd := w_cwd w; w_executable := w_executable w;
     w_argv := a; w_lstat := w_lstat w; w_spawn := w_spawn w |}.

(** The file system of [w] with the node at [path] replaced by [n]. *)
Definition with_node (w : World) (path : string) (n : Node) : World :=
  {| w_file := w_file w; w_cwd := w_cwd w; w_executable := w_executable w;
     w_argv := w_argv w;
     w_lstat := fun p => if String.eqb p path then n else w_lstat w p;
     w_spawn := w_spawn w |}.

(** [os.path.realpath(p)]: a relative path starts at the working
    directory, the walk follows links, and [abspath] normalises what is
    left. *)
Definition realpath (w : World) (p : PurePath) : list string :=
  let start :=
    if absolute p then [] else normparts [] (parts (Path (w_cwd w))) in
  normparts [] (fst (joinrealpath (w_lstat w) MAXSYMLINKS start (parts p))).

(** [p.resolve()] *)
Definition resolve (w : World) (p : PurePath) : PurePath :=
  {| absolute := true; parts := realpath w p |}.

(** ** Effects *)

(** What a process does to its environment. *)
Inductive Event : Type :=
| EvSpawn (req : SpawnRequest)
| EvWait
| EvFsWrite (path : string)
| EvNetwork.

Inductive Exn : Type :=
| OSError (errno : Z)
| CalledProcessError (returncode : Z).

(** The end of a computation: a value, an exception, or a wait that
    never returns. *)
Inductive Res (A : Type) : Type :=
| Ok (a : A)
| Raised (e : Exn)
| Blocked.

Arguments Ok {A} a.
Arguments Raised {A} e.
Arguments Blocked {A}.

Definition M (A : Type) : Type := list Event * Res A.

Definition ret {A : Type} (a : A) : M A := ([], Ok a).

Definition raise {A : Type} (e : Exn) : M A := ([], Raised e).

Definition block {A : Type} : M A := ([], Blocked).

Definition tell (e : Event) : M unit := ([e], Ok tt).

Definition bind {A B : Type} (m : M A) (k : A -> M B) : M B :=
  match m with
  | (t, Ok a) => let (t', r) := k a in (t ++ t', r)
  | (t, Raised e) => (t, Raised e)
  | (t, Blocked) => (t, Blocked)
  end.

Notation "x <- m ;; k" := (bind m (fun x => k))
  (at level 61, m at next level, right associativity).
Notation "m ;;; k" := (bind m (fun _ => k))
  (at level 61, right associativity).

(** ** [subprocess] *)

Record CompletedProcess : Type := mkCompleted {
  cp_args : list string;
  returncode : Z;
  cp_stdout : option string;
  cp_stderr : option string
}.

(** A live [Popen] object: the fate of its child and what arrives on
    the pipes that were asked for. *)
Record Process : Type := mkProcess {
  pr_fate : Termination;
  pr_stdout : option string;
  pr_stderr : option string
}.

Definition piped (io : Stdio) (data : string) : option string :=
  match io with
  | PIPE => Some data
  | Inherit => None
  end.

(** [Popen(args, cwd=cwd, stdout=..., stderr=...)]: the child exists
    afterwards, or [OSError] is raised. *)
Definition Popen (w : World) (req : SpawnRequest) : M Process :=
  tell (EvSpawn req) ;;;
  match w_spawn w req with
  | SpawnFails errno => raise (OSError errno)
  | Spawned fate out err =>
      ret (mkProcess fate (piped (sp_stdout req) out) (piped (sp_stderr req) err))
  end.

(** [process.communicate()] followed by [process.poll()]: the wait
    blocks until the child is gone; an exit status is reported as it
    is, death by signal [n] as [-n]. *)
Definition communicate (process : Process) : M Z :=
  tell EvWait ;;;
  match pr_fate process with
  | Exits status => ret status
  | KilledBy signal => ret (- signal)%Z
  | NeverTerminates => block
  end.

(** [subprocess.run(args, cwd=cwd, capture_output=..., check=...)] *)
Definition subprocess_run (w : World) (args : list string)
    (cwd : option string) (capture_output check : bool) : M CompletedProcess :=
  let out := if capture_output then PIPE else Inherit in
  process <- Popen w (mkRequest args cwd Inherit out out) ;;
  retcode <- communicate process ;;
  if check && negb (retcode =? 0)%Z then raise (CalledProcessError retcode)
  else ret (mkCompleted args retcode (pr_stdout process) (pr_stderr process)).

(** ** The launcher *)

Definition sys_executable (w : World) : string := w_executable w.

(** [root = Path(__file__).resolve().parent] *)
Definition root (w : World) : PurePath :=
  parent (resolve w (Path (w_file w))).

(** [compiler = root / "llmpl_to_python.py"] *)
Definition compiler (w : World) : PurePath :=
  root w </> "llmpl_to_python.py".

(** [source = root / "example_mvp.llmpl"] *)
Definition source (w : World) : PurePath :=
  root w </> "example_mvp.llmpl".

Definition main (w : World) : M Z :=
  result <- subprocess_run w
              [sys_executable w; str (compiler w); str (source w); "--run"]
              (Some (str (root w)))
              false      (* capture_output: left at its default *)
              false      (* check=False *) ;;
  ret (returncode result).

(** How a process ends for its parent. *)
Inductive ProcessEnd : Type :=
| ExitStatus (status : Z)
| Hangs.

(** [raise SystemExit(code)]: the parent sees the low eight bits. *)
Definition SystemExit (code : Z) : Z := Z.land code 255.

(** [if __name__ == "__main__": raise SystemExit(main())]; an exception
    that leaves [main] ends the interpreter with status 1. *)
Definition run_demo (w : World) : list Event * ProcessEnd :=
  match main w with
  | (t, Ok code) => (t, ExitStatus (SystemExit code))
  | (t, Raised _) => (t, ExitStatus 1)
  | (t, Blocked) => (t, Hangs)
  end.

(** ** Reading a trace *)

Fixpoint spawn_requests (t : list Event) : list SpawnRequest :=
  match t with
  | [] => []
  | EvSpawn req :: t' => req :: spawn_requests t'
  | _ :: t' => spawn_requests t'
  end.

Definition writes_or_sends (e : Event) : bool :=
  match e with
  | EvFsWrite _ | EvNetwork => true
  | _ => false
  end.

(** The request the launcher's call of [subprocess.run] amounts to. *)
Definition launch_request (w : World) : SpawnRequest :=
  mkRequest [sys_executable w; str (compiler w); str (source w); "--run"]
            (Some (str (root w))) Inherit Inherit Inherit.

(** The text of the entry [name] of the directory whose text is [dir]. *)
Definition sibling (dir name : string) : string :=
  if String.eqb dir "/" then "/" +++ name else dir +++ "/" +++ name.

(** Two views of a file system that show the same links. *)
Definition same_links (l1 l2 : string -> Node) : Prop :=
  forall p,
    match l1 p, l2 p with
    | Symlink a, Symlink b => a = b
    | Symlink _, _ | _, Symlink _ => False
    | _, _ => True
    end.

(** Components as [Path] produces them: not empty and not ["."]. *)
Definition components (ps : list string) : Prop :=
  Forall (fun n => is_component n = true) ps.

(** The interpreter's command line, as the launcher relies on it: a
    child started on a script that is not there says so and exits with
    a status that is not zero (CPython exits with 2), unless it cannot
    be started at all. *)
Definition interpreter_reports_missing_script (w : World) : Prop :=
  forall req script rest,
    sp_args req = w_executable w :: script :: rest ->
    w_lstat w script = Missing ->
    (exists errno, w_spawn w req = SpawnFails errno) \/
    (exists c out err,
        w_spawn w req = Spawned (Exits c) out err /\ (0 < c <= 255)%Z).

(** ** A sample installation *)

Definition demo_fs (p : string) : Node :=
  if String.eqb p "/usr/local/bin/llmpl-demo" then Symlink "/opt/llmpl/mvp/run_demo.py"
  else if String.eqb p "/opt/current" then Symlink "llmpl/mvp"
  else if String.eqb p "/opt/llmpl/mvp/run_demo.py" then Regular
  else if String.eqb p "/opt/llmpl/mvp/llmpl_to_python.py" then Regular
  else if String.eqb p "/opt/llmpl/mvp/example_mvp.llmpl" then Regular
  else if String.eqb p "/opt/llmpl/mvp" then Directory
  else if String.eqb p "/opt/llmpl" then Directory
  else if String.eqb p "/opt" then Directory
  else Missing.

(** The launcher started by its own path from [/home/user], with a
    child that ends as [o] says. *)
Definition demo_world (o : ChildOutcome) : World :=
  {| w_file := "/opt/llmpl/mvp/run_demo.py";
     w_cwd := "/home/user";
     w_executable := "/usr/bin/python3";
     w_argv := [];
     w_lstat := demo_fs;
     w_spawn := fun _ => o |}.

(** The installation with the compiler entry point removed, and an
    interpreter that answers a missing script with status 2. *)
Definition broken_fs (p : string) : Node :=
  if String.eqb p "/opt/llmpl/mvp/llmpl_to_python.py" then Missing
  else demo_fs p.

Definition broken_world : World :=
  {| w_file := "/opt/llmpl/mvp/run_demo.py";
     w_cwd := "/home/user";
     w_executable := "/usr/bin/python3";
     w_argv := [];
     w_lstat := broken_fs;
     w_spawn := fun req =>
       match sp_args req with
       | _ :: script :: _ =>
           match broken_fs script with
           | Missing => Spawned (Exits 2) "" "can't open file"
           | _ => Spawned (Exits 0) "" ""
           end
       | _ => SpawnFails 2
       end |}.

(** The installation with the compiler entry point removed, run inside
    a host program that embeds the interpreter: [sys.executable] is the
    host, and the host ends with status 0 whatever its arguments. *)
Definition embedded_world : World :=
  {| w_file := "/opt/llmpl/mvp/run_demo.py";
     w_cwd := "/home/user";
     w_executable := "/opt/host/bin/host";
     w_argv := [];
     w_lstat := broken_fs;
     w_spawn := fun _ => Spawned (Exits 0) "" "" |}.

(** The same launcher started through the link in [/usr/local/bin]. *)
Definition demo_world_link (o : ChildOutcome) : World :=
  with_cwd (with_file (demo_world o) "/usr/local/bin/llmpl-demo") "/tmp".

(** The same launcher started by a relative name from [/opt], through
    the directory link [/opt/current]. *)
Definition demo_world_rel (o : ChildOutcome) : World :=
  with_cwd (with_file (demo_world o) "current/./run_demo.py") "/opt".

(** ** Further vocabulary *)

(** The world [w] with another answer of the operating system to spawn
    requests. *)
Definition with_spawn (w : World) (f : SpawnRequest -> ChildOutcome) : World :=
  {| w_file := w_file w; w_cwd := w_cwd w; w_executable := w_executable w;
     w_argv := w_argv w; w_lstat := w_lstat w; w_spawn := f |}.

(** Two outcomes that differ at most in what the child wrote. *)
Definition same_fate (o o' : ChildOutcome) : Prop :=
  match o, o' with
  | SpawnFails e, SpawnFails e' => e = e'
  | Spawned f _ _, Spawned f' _ _ => f = f'
  | _, _ => False
  end.

(** What [waitpid] can report: an exit status is one byte, a signal
    number is positive and fits a byte. *)
Definition posix_outcome (o : ChildOutcome) : bool :=
  match o with
  | Spawned (Exits c) _ _ => ((0 <=? c) && (c <=? 255))%Z
  | Spawned (KilledBy n) _ _ => ((0 <? n) && (n <=? 255))%Z
  | _ => true
  end.

(** No separator inside a component. *)
Fixpoint slashless (s : string) : bool :=
  match s with
  | EmptyString => true
  | String c s' => negb (Ascii.eqb c sep) && slashless s'
  end.

(** [plain lstat path rest]: walking [rest] below [path] meets neither
    [".."] nor a link. *)
Fixpoint plain (lstat : string -> Node) (path rest : list string) : bool :=
  match rest with
  | [] => true
  | name :: rest' =>
      negb (String.eqb name pardir)
      && negb (is_symlink (lstat (str (mkPath true (path ++ [name])))))
      && plain lstat (path ++ [name]) rest'
  end.

(** A rooted list of components that names a place directly. *)
Definition canonical (lstat : string -> Node) (ps : list string) : bool :=
  plain lstat [] ps.

(** Whether the walk that resolves the launcher's [__file__] came to
    its end ([ok] of [_joinrealpath]). *)
Definition resolved (w : World) : bool :=
  let p := Path (w_file w) in
  let start :=
    if absolute p then [] else normparts [] (parts (Path (w_cwd w))) in
  snd (joinrealpath (w_lstat w) MAXSYMLINKS start (parts p)).

(** Whether the working directory is the canonical name [getcwd]
    returns. *)
Definition cwd_canonical (w : World) : bool :=
  canonical (w_lstat w) (normparts [] (parts (Path (w_cwd w)))).

(** ** The launcher, case by case *)

Lemma main_unfold (w : World) :
  main w =
  match w_spawn w (launch_request w) with
  | SpawnFails errno => ([EvSpawn (launch_request w)], Raised (OSError errno))
  | Spawned (Exits c) _ _ => ([EvSpawn (launch_request w); EvWait], Ok c)
  | Spawned (KilledBy n) _ _ => ([EvSpawn (launch_request w); EvWait], Ok (- n)%Z)
  | Spawned NeverTerminates _ _ => ([EvSpawn (launch_request w); EvWait], Blocked)
  end.
Proof.
  unfold main, subprocess_run, Popen, communicate, launch_request.
  cbn [bind tell ret raise block andb].
  destruct (w_spawn w _) as [errno | [c | n | ] out err]; reflexivity.
Qed.

(** ** Paths *)

Lemma append_assoc (a b c : string) : (a +++ b) +++ c = a +++ b +++ c.
Proof.
  induction a as [| x a IH]; cbn; [reflexivity | now rewrite IH].
Qed.

Lemma join_snoc (ps : list string) (n : string) :
  ps <> [] -> join (ps ++ [n]) = join ps +++ "/" +++ n.
Proof.
  unfold join.
  induction ps as [| a ps IH]; intros Hne; [congruence |].
  destruct ps as [| b ps].
  - reflexivity.
  - change (String.concat "/" ((a :: b :: ps) ++ [n]))
      with (a +++ "/" +++ String.concat "/" ((b :: ps) ++ [n])).
    rewrite IH by discriminate.
    change (String.concat "/" (a :: b :: ps))
      with (a +++ "/" +++ String.concat "/" (b :: ps)).
    now rewrite !append_assoc.
Qed.

Lemma join_components_nonempty (a : string) (ps : list string) :
  is_component a = true -> join (a :: ps) <> "".
Proof.
  intros Ha.
  destruct a as [| x a]; [discriminate |].
  unfold join. destruct ps; cbn; discriminate.
Qed.

(** The text of a rooted path with one more component. *)
Lemma str_snoc (ps : list string) (n : string) :
  components ps ->
  str (mkPath true (ps ++ [n])) = sibling (str (mkPath true ps)) n.
Proof.
  intros Hps. unfold str, sibling. cbn [absolute parts].
  destruct ps as [| a ps].
  - reflexivity.
  - rewrite join_snoc by discriminate.
    inversion Hps as [| ? ? Ha _]; subst.
    pose proof (join_components_nonempty a ps Ha) as Hne.
    destruct (join (a :: ps)) as [| c r] eqn:E; [congruence |].
    reflexivity.
Qed.

Lemma parent_snoc (b : bool) (ps : list string) (n : string) :
  parent (mkPath b (ps ++ [n])) = mkPath b ps.
Proof.
  unfold parent. cbn [absolute parts]. now rewrite removelast_last.
Qed.

Lemma components_app (a b : list string) :
  components a -> components b -> components (a ++ b).
Proof.
  unfold components. intros Ha Hb. apply Forall_app. now split.
Qed.

Lemma components_removelast (a : list string) :
  components a -> components (removelast a).
Proof.
  unfold components.
  induction a as [| x a IH]; intros H; [constructor |].
  inversion H; subst. destruct a as [| y a]; [constructor |].
  cbn [removelast]. constructor; [assumption | now apply IH].
Qed.

Lemma components_Path (s : string) : components (parts (Path s)).
Proof.
  unfold components, Path. cbn [parts].
  apply Forall_forall. intros n Hn. now apply filter_In in Hn.
Qed.

Lemma components_normparts (rest acc : list string) :
  components acc -> components rest -> components (normparts acc rest).
Proof.
  revert acc.
  induction rest as [| n rest IH]; intros acc Hacc Hrest; cbn [normparts].
  - assumption.
  - inversion Hrest; subst.
    destruct (String.eqb n pardir).
    + apply IH; [now apply components_removelast | assumption].
    + apply IH; [| assumption].
      apply components_app; [assumption | now constructor].
Qed.

(** ** The walk of [joinrealpath] *)

Section Walk.

Variable lstat : string -> Node.

Lemma joinrealpath_nil (fuel : nat) (path : list string) :
  joinrealpath lstat fuel path [] = (path, true).
Proof. destruct fuel; reflexivity. Qed.

Lemma joinrealpath_cons (fuel : nat) (path : list string)
    (name : string) (rest : list string) :
  joinrealpath lstat fuel path (name :: rest) =
  if String.eqb name pardir
  then joinrealpath lstat fuel (removelast path) rest
  else
    match lstat (str (mkPath true (path ++ [name]))) with
    | Symlink target =>
        match fuel with
        | O => ((path ++ [name]) ++ rest, false)
        | S fuel' =>
            match joinrealpath lstat fuel'
                    (if absolute (Path target) then [] else path)
                    (parts (Path target)) with
            | (path', true) => joinrealpath lstat fuel path' rest
            | (path', false) => (path' ++ rest, false)
            end
        end
    | _ => joinrealpath lstat fuel (path ++ [name]) rest
    end.
Proof. destruct fuel; reflexivity. Qed.

(** The walk only ever holds components. *)
Lemma joinrealpath_components (fuel : nat) :
  forall rest path,
    components path -> components rest ->
    components (fst (joinrealpath lstat fuel path rest)).
Proof.
  induction fuel as [| fuel IHfuel];
    induction rest as [| name rest IH]; intros path Hpath Hrest.
  all: try (rewrite joinrealpath_nil; exact Hpath).
  all: rewrite joinrealpath_cons; inversion Hrest as [| ? ? Hname Hrest']; subst.
  all: assert (Hnew : components (path ++ [name]))
         by (apply components_app; [assumption | now constructor]).
  all: destruct (String.eqb name pardir);
         [apply IH; [now apply components_removelast | assumption] |].
  all: destruct (lstat _) as [| | | target]; try (apply IH; assumption).
  - cbn [fst]. now apply components_app.
  - assert (Hstart : components (if absolute (Path target) then [] else path))
      by (destruct (absolute (Path target)); [constructor | assumption]).
    specialize (IHfuel (parts (Path target)) _ Hstart (components_Path target)).
    destruct (joinrealpath lstat fuel _ (parts (Path target))) as [path' [|]];
      cbn [fst] in IHfuel.
    + apply IH; assumption.
    + cbn [fst]. now apply components_app.
Qed.

(** Walking [a ++ b] is walking [a] and then [b]. *)
Lemma joinrealpath_app (fuel : nat) :
  forall a b path,
    joinrealpath lstat fuel path (a ++ b) =
    match joinrealpath lstat fuel path a with
    | (path', true) => joinrealpath lstat fuel path' b
    | (path', false) => (path' ++ b, false)
    end.
Proof.
  induction a as [| name a IH]; intros b path.
  - now rewrite joinrealpath_nil.
  - cbn [app]. rewrite !joinrealpath_cons.
    destruct (String.eqb name pardir); [apply IH |].
    destruct (lstat _) as [| | | target]; try apply IH.
    destruct fuel as [| fuel'].
    + now rewrite <- !app_assoc.
    + destruct (joinrealpath lstat fuel' _ (parts (Path target))) as [path' [|]].
      * apply IH.
      * now rewrite <- app_assoc.
Qed.

(** A walk that came to its end is not changed by a larger bound. *)
Lemma joinrealpath_mono (fuel : nat) :
  forall rest path res,
    joinrealpath lstat fuel path rest = (res, true) ->
    joinrealpath lstat (S fuel) path rest = (res, true).
Proof.
  induction fuel as [| fuel IHfuel];
    induction rest as [| name rest IH]; intros path res H.
  all: try (rewrite joinrealpath_nil in *; exact H).
  all: rewrite joinrealpath_cons in H; rewrite joinrealpath_cons.
  all: destruct (String.eqb name pardir); [now apply IH |].
  all: destruct (lstat _) as [| | | target]; try (now apply IH).
  - discriminate.
  - destruct (joinrealpath lstat fuel _ (parts (Path target)))
      as [path' [|]] eqn:E; [| discriminate].
    rewrite (IHfuel _ _ _ E). now apply IH.
Qed.

Lemma joinrealpath_mono_le (fuel fuel' : nat) (path rest res : list string) :
  fuel <= fuel' ->
  joinrealpath lstat fuel path rest = (res, true) ->
  joinrealpath lstat fuel' path rest = (res, true).
Proof.
  induction 1 as [| m Hle IH]; intros H; [assumption |].
  apply joinrealpath_mono. now apply IH.
Qed.

End Walk.

(** The walk reads the file system only to find links. *)
Lemma joinrealpath_same_links (l1 l2 : string -> Node) (fuel : nat) :
  same_links l1 l2 ->
  forall rest path, joinrealpath l1 fuel path rest = joinrealpath l2 fuel path rest.
Proof.
  intros Hsame.
  induction fuel as [| fuel IHfuel];
    induction rest as [| name rest IH]; intros path.
  all: try (now rewrite !joinrealpath_nil).
  all: rewrite !joinrealpath_cons.
  all: destruct (String.eqb name pardir); [apply IH |].
  all: specialize (Hsame (str (mkPath true (path ++ [name])))).
  all: destruct (l1 _) as [| | | t1]; destruct (l2 _) as [| | | t2];
         try contradiction; try apply IH; subst t2.
  - reflexivity.
  - rewrite IHfuel.
    destruct (joinrealpath l2 fuel _ (parts (Path t1))) as [path' [|]];
      [apply IH | reflexivity].
Qed.

(** ** Resolving a path *)

Lemma same_links_refl (l : string -> Node) : same_links l l.
Proof. intros p. now destruct (l p). Qed.

Lemma same_links_with_node (w : World) (path : string) (n : Node) :
  is_symlink n = false ->
  is_symlink (w_lstat w path) = false ->
  same_links (w_lstat (with_node w path n)) (w_lstat w).
Proof.
  intros Hn Hold p. cbn [with_node w_lstat].
  destruct (String.eqb_spec p path) as [-> | _].
  - destruct n; try discriminate; destruct (w_lstat w path); try discriminate; exact I.
  - apply same_links_refl.
Qed.

Lemma realpath_components (w : World) (p : PurePath) :
  components (parts p) -> components (realpath w p).
Proof.
  intros Hp. unfold realpath.
  apply components_normparts; [constructor |].
  apply joinrealpath_components; [| assumption].
  destruct (absolute p); [constructor |].
  apply components_normparts; [constructor | apply components_Path].
Qed.

(** A rooted path is resolved without a look at the working directory. *)
Lemma realpath_absolute_cwd (w : World) (d : string) (p : PurePath) :
  absolute p = true -> realpath (with_cwd w d) p = realpath w p.
Proof.
  intros Habs. unfold realpath. now rewrite Habs.
Qed.

(** A relative path resolves as the rooted path that the working
    directory makes of it, when the working directory is the canonical
    name that [getcwd] returns. *)
Lemma realpath_relative (w : World) (ps : list string) :
  let cwd := normparts [] (parts (Path (w_cwd w))) in
  joinrealpath (w_lstat w) MAXSYMLINKS [] cwd = (cwd, true) ->
  realpath w (mkPath false ps) = realpath w (mkPath true (cwd ++ ps)).
Proof.
  intros cwd Hcwd. unfold realpath. cbn [absolute parts].
  fold cwd. now rewrite joinrealpath_app, Hcwd.
Qed.

(** A path whose last component is a link resolves to what the link's
    target resolves to. *)
Lemma realpath_follows_link (w : World) (dir dir' : list string)
    (name target : string) (res : list string) :
  joinrealpath (w_lstat w) MAXSYMLINKS [] dir = (dir', true) ->
  String.eqb name pardir = false ->
  w_lstat w (str (mkPath true (dir' ++ [name]))) = Symlink target ->
  absolute (Path target) = true ->
  joinrealpath (w_lstat w) (pred MAXSYMLINKS) [] (parts (Path target)) = (res, true) ->
  realpath w (mkPath true (dir ++ [name])) = realpath w (Path target).
Proof.
  intros Hdir Hname Hlink Habs Hres. unfold realpath.
  cbn [absolute parts]. rewrite Habs.
  rewrite joinrealpath_app, Hdir, joinrealpath_cons, Hname, Hlink, Habs.
  change MAXSYMLINKS with (S (pred MAXSYMLINKS)) at 1.
  cbv iota. rewrite Hres, joinrealpath_nil.
  now rewrite (joinrealpath_mono_le _ _ MAXSYMLINKS _ _ _ (Nat.le_pred_l _) Hres).
Qed.

Example demo_link_followed (o : ChildOutcome) :
  realpath (demo_world_link o) (Path "/usr/local/bin/llmpl-demo")
  = realpath (demo_world_link o) (Path "/opt/llmpl/mvp/run_demo.py").
Proof.
  apply (realpath_follows_link (demo_world_link o)
           ["usr"; "local"; "bin"] ["usr"; "local"; "bin"] "llmpl-demo"
           "/opt/llmpl/mvp/run_demo.py" ["opt"; "llmpl"; "mvp"; "run_demo.py"]);
    reflexivity.
Qed.

Example demo_relative_start (o : ChildOutcome) :
  realpath (demo_world_rel o) (Path "current/./run_demo.py")
  = realpath (demo_world_rel o) (Path "/opt/current/run_demo.py").
Proof.
  apply (realpath_relative (demo_world_rel o) ["current"; "run_demo.py"]).
  reflexivity.
Qed.

(** ** The launcher's paths *)

Lemma root_absolute (w : World) : absolute (root w) = true.
Proof. reflexivity. Qed.

Lemma root_components (w : World) : components (parts (root w)).
Proof.
  unfold root, parent, resolve. cbn [parts].
  apply components_removelast, realpath_components, components_Path.
Qed.

Lemma truediv_name (p : PurePath) (name : string) :
  Path name = mkPath false [name] ->
  p </> name = mkPath (absolute p) (parts p ++ [name]).
Proof.
  intros Hname. unfold truediv. now rewrite Hname.
Qed.

Lemma compiler_eq (w : World) :
  compiler w = mkPath true (parts (root w) ++ ["llmpl_to_python.py"]).
Proof. unfold compiler. now rewrite truediv_name. Qed.

Lemma source_eq (w : World) :
  source w = mkPath true (parts (root w) ++ ["example_mvp.llmpl"]).
Proof. unfold source. now rewrite truediv_name. Qed.

Lemma root_eta (w : World) : root w = mkPath true (parts (root w)).
Proof. reflexivity. Qed.

Lemma str_compiler (w : World) :
  str (compiler w) = sibling (str (root w)) "llmpl_to_python.py".
Proof.
  rewrite compiler_eq, (root_eta w) at 1.
  rewrite str_snoc by apply root_components. reflexivity.
Qed.

Lemma str_source (w : World) :
  str (source w) = sibling (str (root w)) "example_mvp.llmpl".
Proof.
  rewrite source_eq, (root_eta w) at 1.
  rewrite str_snoc by apply root_components. reflexivity.
Qed.

Lemma root_same_links (w w' : World) :
  w_file w' = w_file w -> w_cwd w' = w_cwd w ->
  same_links (w_lstat w') (w_lstat w) ->
  root w' = root w.
Proof.
  intros Hfile Hcwd Hsame. unfold root, resolve, realpath.
  rewrite Hfile, Hcwd.
  now rewrite (joinrealpath_same_links _ _ _ Hsame).
Qed.

(** The request depends on the world through the anchor directory and
    the runtime's executable alone. *)
Lemma launch_request_root (w w' : World) :
  root w' = root w -> w_executable w' = w_executable w ->
  launch_request w' = launch_request w.
Proof.
  intros Hroot Hexe.
  unfold launch_request, compiler, source, sys_executable.
  now rewrite Hroot, Hexe.
Qed.

Lemma spawn_requests_main (w : World) :
  spawn_requests (fst (main w)) = [launch_request w].
Proof.
  rewrite main_unfold.
  destruct (w_spawn w _) as [errno | [c | n |] out err]; reflexivity.
Qed.

Lemma trace_run_demo (w : World) : fst (run_demo w) = fst (main w).
Proof.
  unfold run_demo. now destruct (main w) as [t [c | e |]].
Qed.

Lemma SystemExit_byte (c : Z) : (0 <= c <= 255)%Z -> SystemExit c = c.
Proof.
  intros Hc. unfold SystemExit.
  change 255%Z with (Z.ones 8). rewrite Z.land_ones by lia.
  apply Z.mod_small. change (2 ^ 8)%Z with 256%Z. lia.
Qed.

Lemma SystemExit_negative (n : Z) :
  (0 < n <= 255)%Z -> SystemExit (- n) = (256 - n)%Z.
Proof.
  intros Hn. unfold SystemExit.
  change 255%Z with (Z.ones 8). rewrite Z.land_ones by lia.
  change (2 ^ 8)%Z with 256%Z.
  symmetry. apply Z.mod_unique with (q := (-1)%Z); lia.
Qed.

(** With [check=True] the same call would raise on a failing child. *)
Lemma subprocess_run_check (w : World) (args : list string)
    (cwd : option string) (c : Z) (out err : string) :
  w_spawn w (mkRequest args cwd Inherit Inherit Inherit) = Spawned (Exits c) out err ->
  c <> 0%Z ->
  snd (subprocess_run w args cwd false true) = Raised (CalledProcessError c).
Proof.
  intros Hspawn Hc. unfold subprocess_run, Popen, communicate.
  cbn [bind tell ret raise]. rewrite Hspawn. cbn.
  destruct (Z.eqb_spec c 0); [contradiction | reflexivity].
Qed.

(** ** Properties of the launcher *)

(** C1 (exit code fidelity): when the child exits with code [c], [main]
    returns [c] unchanged, and for every [c] a process can exit with
    (0 to 255, so 0, 1, 2 and 127 among them) the launcher's own exit
    status is [c]. *)
Theorem exit_code_fidelity (w : World) (c : Z) (out err : string) :
  w_spawn w (launch_request w) = Spawned (Exits c) out err ->
  snd (main w) = Ok c /\
  ((0 <= c <= 255)%Z -> snd (run_demo w) = ExitStatus c).
Proof.
  intros Hspawn. unfold run_demo. rewrite main_unfold, Hspawn. cbn [snd].
  split; [reflexivity |].
  intros Hc. now rewrite SystemExit_byte.
Qed.

Lemma exit_code_fidelity_witness :
  w_spawn (demo_world (Spawned (Exits 127) "" ""))
          (launch_request (demo_world (Spawned (Exits 127) "" "")))
    = Spawned (Exits 127) "" "" /\
  (0 <= 127 <= 255)%Z /\
  snd (main (demo_world (Spawned (Exits 127) "" ""))) = Ok 127%Z /\
  snd (run_demo (demo_world (Spawned (Exits 127) "" ""))) = ExitStatus 127.
Proof.
  assert (Hc : (0 <= 127 <= 255)%Z) by lia.
  destruct (exit_code_fidelity (demo_world (Spawned (Exits 127) "" "")) 127 "" ""
              eq_refl) as [Hmain Hstatus].
  split; [reflexivity |].
  split; [exact Hc |].
  split; [exact Hmain | exact (Hstatus Hc)].
Defined.

(** C2 (argument construction): every invocation hands exactly one
    argument vector to the child, and it is the runtime's executable,
    the compiler path, the source path and ["--run"], in this order
    and nothing else; the two paths are the texts of the entries
    [llmpl_to_python.py] and [example_mvp.llmpl] of the directory of
    the launcher's resolved file. *)
Theorem argument_construction (w : World) :
  exists req,
    spawn_requests (fst (run_demo w)) = [req] /\
    sp_args req =
      [sys_executable w; str (compiler w); str (source w); "--run"] /\
    length (sp_args req) = 4 /\
    sp_args req =
      [w_executable w;
       sibling (str (parent (resolve w (Path (w_file w))))) "llmpl_to_python.py";
       sibling (str (parent (resolve w (Path (w_file w))))) "example_mvp.llmpl";
       "--run"].
Proof.
  exists (launch_request w).
  rewrite trace_run_demo, spawn_requests_main.
  repeat (split; [reflexivity |]).
  unfold launch_request, sys_executable. cbn [sp_args].
  now rewrite str_compiler, str_source.
Qed.

Lemma argument_construction_witness :
  exists req,
    spawn_requests (fst (run_demo (demo_world_link (Spawned (Exits 0) "OK" ""))))
      = [req] /\
    sp_args req =
      ["/usr/bin/python3"; "/opt/llmpl/mvp/llmpl_to_python.py";
       "/opt/llmpl/mvp/example_mvp.llmpl"; "--run"].
Proof.
  destruct (argument_construction (demo_world_link (Spawned (Exits 0) "OK" "")))
    as (req & Htrace & _ & _ & Hargs).
  exists req. split; [exact Htrace |].
  rewrite Hargs. vm_compute. reflexivity.
Defined.

(** C3 (path anchoring): the working directory does not enter the
    compiler path and the source path of a launcher started by a rooted
    [__file__]; and two invocations whose [__file__] resolves to the
    same launcher file, whatever their working directories and whatever
    link or relative name they were started through, compute the same
    two paths: the entries [llmpl_to_python.py] and [example_mvp.llmpl]
    of the directory of the resolved launcher file. *)
Theorem path_anchoring (w1 w2 : World) :
  (forall d,
      absolute (Path (w_file w1)) = true ->
      compiler (with_cwd w1 d) = compiler w1 /\
      source (with_cwd w1 d) = source w1) /\
  (resolve w1 (Path (w_file w1)) = resolve w2 (Path (w_file w2)) ->
   compiler w1 = compiler w2 /\
   source w1 = source w2 /\
   str (compiler w1) =
     sibling (str (parent (resolve w2 (Path (w_file w2))))) "llmpl_to_python.py" /\
   str (source w1) =
     sibling (str (parent (resolve w2 (Path (w_file w2))))) "example_mvp.llmpl").
Proof.
  split.
  - intros d Habs.
    assert (Hroot : root (with_cwd w1 d) = root w1)
      by (unfold root, resolve; cbn [with_cwd w_file];
          now rewrite realpath_absolute_cwd).
    unfold compiler, source. rewrite Hroot. split; reflexivity.
  - intros Hloc.
    assert (Hroot : root w1 = root w2) by (unfold root; now rewrite Hloc).
    rewrite str_compiler, str_source.
    unfold compiler, source. rewrite Hroot. repeat split.
Qed.

Lemma path_anchoring_witness :
  absolute (Path (w_file (demo_world_link (Spawned (Exits 0) "" "")))) = true /\
  compiler (with_cwd (demo_world_link (Spawned (Exits 0) "" "")) "/var/empty")
    = compiler (demo_world_link (Spawned (Exits 0) "" "")) /\
  (resolve (demo_world_link (Spawned (Exits 0) "" ""))
           (Path (w_file (demo_world_link (Spawned (Exits 0) "" ""))))
   = resolve (demo_world_rel (Spawned (Exits 0) "" ""))
             (Path (w_file (demo_world_rel (Spawned (Exits 0) "" ""))))) /\
  w_cwd (demo_world_link (Spawned (Exits 0) "" ""))
    <> w_cwd (demo_world_rel (Spawned (Exits 0) "" "")) /\
  compiler (demo_world_link (Spawned (Exits 0) "" ""))
    = compiler (demo_world_rel (Spawned (Exits 0) "" "")) /\
  str (source (demo_world_link (Spawned (Exits 0) "" "")))
    = "/opt/llmpl/mvp/example_mvp.llmpl".
Proof.
  assert (Hloc :
    resolve (demo_world_link (Spawned (Exits 0) "" ""))
            (Path (w_file (demo_world_link (Spawned (Exits 0) "" ""))))
    = resolve (demo_world_rel (Spawned (Exits 0) "" ""))
              (Path (w_file (demo_world_rel (Spawned (Exits 0) "" "")))))
    by (vm_compute; reflexivity).
  destruct (path_anchoring (demo_world_link (Spawned (Exits 0) "" ""))
              (demo_world_rel (Spawned (Exits 0) "" ""))) as [Hcwd Hsame].
  destruct (Hcwd "/var/empty" eq_refl) as [Hc1 _].
  destruct (Hsame Hloc) as (Hc & _ & _ & Hs).
  split; [reflexivity |].
  split; [exact Hc1 |].
  split; [exact Hloc |].
  split; [vm_compute; discriminate |].
  split; [exact Hc |].
  rewrite Hs. vm_compute. reflexivity.
Defined.

(** C5 (no raise on failure): whatever code the child exits with, zero
    or not, [main] raises nothing and returns that code as its value,
    after one spawn and one wait: nothing is retried or repaired. *)
Theorem nonzero_exit_is_a_value (w : World) (c : Z) (out err : string) :
  w_spawn w (launch_request w) = Spawned (Exits c) out err ->
  main w = ([EvSpawn (launch_request w); EvWait], Ok c) /\
  (forall e, snd (main w) <> Raised e).
Proof.
  intros Hspawn. rewrite main_unfold, Hspawn.
  split; [reflexivity | intros e; discriminate].
Qed.

Lemma nonzero_exit_is_a_value_witness :
  w_spawn (demo_world (Spawned (Exits 1) "" "syntax error"))
          (launch_request (demo_world (Spawned (Exits 1) "" "syntax error")))
    = Spawned (Exits 1) "" "syntax error" /\
  snd (main (demo_world (Spawned (Exits 1) "" "syntax error"))) = Ok 1%Z.
Proof.
  destruct (nonzero_exit_is_a_value
              (demo_world (Spawned (Exits 1) "" "syntax error")) 1 "" "syntax error"
              eq_refl) as [Hmain _].
  split; [reflexivity | now rewrite Hmain].
Defined.

(** C6 (spawn failure), as amended: when the child cannot be created
    the launcher ends, without any wait, with status 1.  A missing
    compiler entry point is not noticed by the launcher itself: the
    interpreter is started as always and its status is forwarded; so
    the launcher ends, without hanging, with a status that is not zero
    provided the interpreter reports a script it cannot open by
    exiting with a status that is not zero (as CPython does, with 2). *)
Theorem spawn_failure_is_not_success (w : World) :
  (forall errno,
      w_spawn w (launch_request w) = SpawnFails errno ->
      run_demo w = ([EvSpawn (launch_request w)], ExitStatus 1)) /\
  (w_lstat w (str (compiler w)) = Missing ->
   interpreter_reports_missing_script w ->
   exists s, snd (run_demo w) = ExitStatus s /\ s <> 0%Z) /\
  (w_lstat w (str (compiler w)) = Missing ->
   spawn_requests (fst (run_demo w)) = [launch_request w] /\
   forall c out err,
     w_spawn w (launch_request w) = Spawned (Exits c) out err ->
     (0 <= c <= 255)%Z ->
     snd (run_demo w) = ExitStatus c).
Proof.
  split; [| split].
  - intros errno Hspawn. unfold run_demo. now rewrite main_unfold, Hspawn.
  - intros Hmissing Hinterp.
    destruct (Hinterp (launch_request w) (str (compiler w))
                [str (source w); "--run"] eq_refl Hmissing)
      as [[errno Hspawn] | (c & out & err & Hspawn & Hc)];
      unfold run_demo; rewrite main_unfold, Hspawn; cbn [snd].
    + exists 1%Z. split; [reflexivity | discriminate].
    + exists c. rewrite SystemExit_byte by lia. split; [reflexivity | lia].
  - intros _. split.
    + now rewrite trace_run_demo, spawn_requests_main.
    + intros c out err Hspawn Hc.
      unfold run_demo. rewrite main_unfold, Hspawn. cbn [snd].
      now rewrite SystemExit_byte.
Qed.

(** C6 as first stated fails: with the compiler entry point missing
    and an executable that ends with status 0 all the same, the
    launcher ends with status 0. *)
Lemma missing_compiler_can_exit_zero :
  ~ (w_lstat embedded_world (str (compiler embedded_world)) = Missing ->
     exists s, snd (run_demo embedded_world) = ExitStatus s /\ s <> 0%Z).
Proof.
  intros H.
  assert (Hgone : w_lstat embedded_world (str (compiler embedded_world)) = Missing)
    by (vm_compute; reflexivity).
  destruct (H Hgone) as (s & Hend & Hs).
  assert (Hzero : snd (run_demo embedded_world) = ExitStatus 0)
    by (vm_compute; reflexivity).
  rewrite Hzero in Hend. injection Hend as <-. now apply Hs.
Qed.

Lemma broken_world_interpreter : interpreter_reports_missing_script broken_world.
Proof.
  intros req script rest Hargs Hmissing. right.
  exists 2%Z, "", "can't open file".
  cbn [broken_world w_spawn w_lstat] in *.
  rewrite Hargs, Hmissing. split; [reflexivity | lia].
Defined.

Lemma spawn_failure_is_not_success_witness :
  w_spawn (demo_world (SpawnFails 13)) (launch_request (demo_world (SpawnFails 13)))
    = SpawnFails 13 /\
  snd (run_demo (demo_world (SpawnFails 13))) = ExitStatus 1 /\
  w_lstat broken_world (str (compiler broken_world)) = Missing /\
  interpreter_reports_missing_script broken_world /\
  (exists s, snd (run_demo broken_world) = ExitStatus s /\ s <> 0%Z) /\
  snd (run_demo broken_world) = ExitStatus 2.
Proof.
  destruct (spawn_failure_is_not_success (demo_world (SpawnFails 13)))
    as (Hfail & _ & _).
  destruct (spawn_failure_is_not_success broken_world) as (_ & Hmissing & Hforward).
  assert (Hgone : w_lstat broken_world (str (compiler broken_world)) = Missing)
    by (vm_compute; reflexivity).
  assert (Hrange : (0 <= 2 <= 255)%Z) by lia.
  split; [reflexivity |].
  split; [now rewrite (Hfail 13%Z eq_refl) |].
  split; [exact Hgone |].
  split; [exact broken_world_interpreter |].
  split; [exact (Hmissing Hgone broken_world_interpreter) |].
  destruct (Hforward Hgone) as [_ Hstatus].
  exact (Hstatus 2%Z "" "can't open file" eq_refl Hrange).
Defined.

(** C7 (fixed siblings, no pre-validation): the compiler path and the
    source path are the anchor directory with one fixed name added,
    [llmpl_to_python.py] and [example_mvp.llmpl], and nothing else
    enters them; the request the launcher makes is the same whether or
    not there is a file at the source path. *)
Theorem fixed_siblings (w : World) :
  compiler w = mkPath true (parts (root w) ++ ["llmpl_to_python.py"]) /\
  source w = mkPath true (parts (root w) ++ ["example_mvp.llmpl"]) /\
  parent (compiler w) = root w /\
  parent (source w) = root w /\
  str (compiler w) = sibling (str (root w)) "llmpl_to_python.py" /\
  str (source w) = sibling (str (root w)) "example_mvp.llmpl" /\
  (forall n,
      is_symlink n = false ->
      is_symlink (w_lstat w (str (source w))) = false ->
      spawn_requests (fst (run_demo (with_node w (str (source w)) n)))
        = [launch_request w] /\
      In (str (source w)) (sp_args (launch_request w))).
Proof.
  split; [apply compiler_eq |].
  split; [apply source_eq |].
  split; [rewrite compiler_eq; apply parent_snoc |].
  split; [rewrite source_eq; apply parent_snoc |].
  split; [apply str_compiler |].
  split; [apply str_source |].
  intros n Hn Hold.
  assert (Hroot : root (with_node w (str (source w)) n) = root w)
    by (apply root_same_links; try reflexivity; now apply same_links_with_node).
  rewrite trace_run_demo, spawn_requests_main.
  split.
  - f_equal. now apply launch_request_root.
  - cbn. tauto.
Qed.

Lemma fixed_siblings_witness :
  is_symlink Missing = false /\
  is_symlink (w_lstat (demo_world (Spawned (Exits 0) "OK" ""))
                (str (source (demo_world (Spawned (Exits 0) "OK" ""))))) = false /\
  spawn_requests
    (fst (run_demo (with_node (demo_world (Spawned (Exits 0) "OK" ""))
                      "/opt/llmpl/mvp/example_mvp.llmpl" Missing)))
    = [launch_request (demo_world (Spawned (Exits 0) "OK" ""))].
Proof.
  assert (Hold :
    is_symlink (w_lstat (demo_world (Spawned (Exits 0) "OK" ""))
                  (str (source (demo_world (Spawned (Exits 0) "OK" ""))))) = false)
    by (vm_compute; reflexivity).
  destruct (fixed_siblings (demo_world (Spawned (Exits 0) "OK" "")))
    as (_ & _ & _ & _ & _ & _ & Hsame).
  destruct (Hsame Missing eq_refl Hold) as [Hreq _].
  split; [reflexivity |].
  split; [exact Hold |].
  exact Hreq.
Defined.

(** C8 (one child, nothing else): every invocation makes exactly one
    spawn request, with the three standard streams inherited and
    nothing captured; it writes no file and talks to no network; once
    the child exists the launcher waits, and it ends only when the
    child has ended. *)
Theorem one_child_no_other_effects (w : World) :
  spawn_requests (fst (run_demo w)) = [launch_request w] /\
  sp_stdin (launch_request w) = Inherit /\
  sp_stdout (launch_request w) = Inherit /\
  sp_stderr (launch_request w) = Inherit /\
  forallb (fun e => negb (writes_or_sends e)) (fst (run_demo w)) = true /\
  match snd (subprocess_run w (sp_args (launch_request w))
               (sp_cwd (launch_request w)) false false) with
  | Ok result => cp_stdout result = None /\ cp_stderr result = None
  | _ => True
  end /\
  match w_spawn w (launch_request w) with
  | SpawnFails _ =>
      run_demo w = ([EvSpawn (launch_request w)], ExitStatus 1)
  | Spawned (Exits c) _ _ =>
      run_demo w = ([EvSpawn (launch_request w); EvWait], ExitStatus (SystemExit c))
  | Spawned (KilledBy n) _ _ =>
      run_demo w = ([EvSpawn (launch_request w); EvWait], ExitStatus (SystemExit (- n)))
  | Spawned NeverTerminates _ _ =>
      run_demo w = ([EvSpawn (launch_request w); EvWait], Hangs)
  end.
Proof.
  rewrite trace_run_demo, spawn_requests_main.
  repeat (split; [reflexivity |]).
  split; [| split].
  - rewrite main_unfold.
    destruct (w_spawn w _) as [errno | [c | n |] out err]; reflexivity.
  - unfold subprocess_run, Popen, communicate. cbn [bind tell ret raise block andb].
    change (mkRequest (sp_args (launch_request w)) (sp_cwd (launch_request w))
              Inherit Inherit Inherit) with (launch_request w).
    destruct (w_spawn w _) as [errno | [c | n |] out err]; cbn; auto.
  - unfold run_demo. rewrite main_unfold.
    destruct (w_spawn w _) as [errno | [c | n |] out err]; reflexivity.
Qed.

(** C9 (death by signal): when the child is killed by signal [n],
    [main] returns [-n] as it is; the launcher's own status is what
    the runtime makes of that negative number, [256 - n] for a real
    signal, so it is not the value [main] returned. *)
Theorem signal_death_is_negative (w : World) (n : Z) (out err : string) :
  w_spawn w (launch_request w) = Spawned (KilledBy n) out err ->
  snd (main w) = Ok (- n)%Z /\
  snd (run_demo w) = ExitStatus (SystemExit (- n)) /\
  ((0 < n <= 255)%Z ->
   SystemExit (- n) = (256 - n)%Z /\ SystemExit (- n) <> (- n)%Z).
Proof.
  intros Hspawn. unfold run_demo. rewrite main_unfold, Hspawn. cbn [snd].
  split; [reflexivity |]. split; [reflexivity |].
  intros Hn. rewrite SystemExit_negative by assumption. split; lia.
Qed.

Lemma signal_death_is_negative_witness :
  w_spawn (demo_world (Spawned (KilledBy 9) "" ""))
          (launch_request (demo_world (Spawned (KilledBy 9) "" "")))
    = Spawned (KilledBy 9) "" "" /\
  (0 < 9 <= 255)%Z /\
  snd (main (demo_world (Spawned (KilledBy 9) "" ""))) = Ok (-9)%Z /\
  snd (run_demo (demo_world (Spawned (KilledBy 9) "" ""))) = ExitStatus 247.
Proof.
  assert (Hn : (0 < 9 <= 255)%Z) by lia.
  destruct (signal_death_is_negative (demo_world (Spawned (KilledBy 9) "" "")) 9 "" ""
              eq_refl) as (Hmain & Hstatus & Hbyte).
  destruct (Hbyte Hn) as [Hval _].
  split; [reflexivity |].
  split; [exact Hn |].
  split; [exact Hmain |].
  rewrite Hstatus, Hval. reflexivity.
Defined.

(** C10 (arguments ignored): two invocations that differ only in the
    arguments given to the launcher build the same argument vector
    for the child, start it in the same directory and end the same
    way. *)
Theorem arguments_are_ignored (w : World) (a : list string) :
  sp_args (launch_request (with_argv w a)) = sp_args (launch_request w) /\
  sp_cwd (launch_request (with_argv w a)) = sp_cwd (launch_request w) /\
  main (with_argv w a) = main w /\
  run_demo (with_argv w a) = run_demo w.
Proof. repeat split. Qed.

(** ** More on how the launcher ends *)

(** X1: when the child's outcome is one the operating system can
    report, the launcher ends with status 0 exactly when the child was
    created and exited with status 0. *)
Theorem success_iff_child_success (w : World) :
  posix_outcome (w_spawn w (launch_request w)) = true ->
  snd (run_demo w) = ExitStatus 0 <->
  exists out err, w_spawn w (launch_request w) = Spawned (Exits 0) out err.
Proof.
  intros Hposix. unfold run_demo. rewrite main_unfold.
  destruct (w_spawn w (launch_request w)) as [errno | [c | n |] out err];
    cbn [snd posix_outcome] in *.
  - split; [discriminate | intros (o & e & H); discriminate].
  - apply andb_prop in Hposix. destruct Hposix as [H0 H255].
    apply Z.leb_le in H0. apply Z.leb_le in H255.
    rewrite SystemExit_byte by lia.
    split.
    + intros H. injection H as ->. now exists out, err.
    + intros (o & e & H). now injection H as ->.
  - apply andb_prop in Hposix. destruct Hposix as [H0 H255].
    apply Z.ltb_lt in H0. apply Z.leb_le in H255.
    rewrite SystemExit_negative by lia.
    split.
    + intros H. assert (Hz : (256 - n)%Z = 0%Z) by congruence. lia.
    + intros (o & e & H). discriminate.
  - split; [discriminate | intros (o & e & H); discriminate].
Qed.

Lemma success_iff_child_success_witness :
  posix_outcome (w_spawn (demo_world (Spawned (KilledBy 15) "" ""))
                   (launch_request (demo_world (Spawned (KilledBy 15) "" "")))) = true /\
  snd (run_demo (demo_world (Spawned (KilledBy 15) "" ""))) <> ExitStatus 0 /\
  snd (run_demo (demo_world (Spawned (Exits 0) "OK" ""))) = ExitStatus 0.
Proof.
  pose proof (success_iff_child_success (demo_world (Spawned (KilledBy 15) "" ""))
                eq_refl) as Hkilled.
  pose proof (success_iff_child_success (demo_world (Spawned (Exits 0) "OK" ""))
                eq_refl) as Hok.
  split; [reflexivity |].
  split.
  - intros H. apply Hkilled in H. destruct H as (out & err & H). discriminate.
  - apply Hok. now exists "OK", "".
Defined.

(** X2: [main] raises exactly when the child cannot be created, and
    then it is the [OSError] of the failed spawn; a failing child never
    makes it raise [CalledProcessError]. *)
Theorem main_raises_only_on_spawn_failure (w : World) (e : Exn) :
  snd (main w) = Raised e <->
  exists errno,
    e = OSError errno /\ w_spawn w (launch_request w) = SpawnFails errno.
Proof.
  rewrite main_unfold.
  destruct (w_spawn w (launch_request w)) as [errno | [c | n |] out err];
    cbn [snd].
  - split.
    + intros H. injection H as <-. now exists errno.
    + intros (errno' & -> & H). now injection H as ->.
  - split; [discriminate | intros (errno & _ & H); discriminate].
  - split; [discriminate | intros (errno & _ & H); discriminate].
  - split; [discriminate | intros (errno & _ & H); discriminate].
Qed.

Lemma main_raises_only_on_spawn_failure_witness :
  snd (main (demo_world (SpawnFails 2))) = Raised (OSError 2) /\
  snd (main (demo_world (Spawned (Exits 1) "" "boom"))) <> Raised (CalledProcessError 1).
Proof.
  split.
  - apply (main_raises_only_on_spawn_failure (demo_world (SpawnFails 2))).
    now exists 2%Z.
  - intros H.
    apply (main_raises_only_on_spawn_failure
             (demo_world (Spawned (Exits 1) "" "boom"))) in H.
    destruct H as (errno & H & _). discriminate.
Defined.

(** X6: the launcher does not read what the child writes: two worlds
    whose children end the same way, whatever they print, give the
    same trace and the same end. *)
Theorem child_output_is_not_read (w : World) (f : SpawnRequest -> ChildOutcome) :
  (forall req, same_fate (f req) (w_spawn w req)) ->
  main (with_spawn w f) = main w /\
  run_demo (with_spawn w f) = run_demo w.
Proof.
  intros Hsame.
  assert (Hmain : main (with_spawn w f) = main w).
  { rewrite !main_unfold.
    change (launch_request (with_spawn w f)) with (launch_request w).
    cbn [with_spawn w_spawn].
    specialize (Hsame (launch_request w)).
    destruct (f (launch_request w)) as [e | fate out err];
      destruct (w_spawn w (launch_request w)) as [e' | fate' out' err'];
      cbn [same_fate] in Hsame; try contradiction; subst; reflexivity. }
  split; [exact Hmain |].
  unfold run_demo. now rewrite Hmain.
Qed.

Lemma child_output_is_not_read_witness :
  (forall req,
      same_fate ((fun _ => Spawned (Exits 3) "a lot of text" "and more") req)
                (w_spawn (demo_world (Spawned (Exits 3) "" "")) req)) /\
  run_demo (with_spawn (demo_world (Spawned (Exits 3) "" ""))
              (fun _ => Spawned (Exits 3) "a lot of text" "and more"))
  = run_demo (demo_world (Spawned (Exits 3) "" "")).
Proof.
  assert (Hsame : forall req,
      same_fate ((fun _ => Spawned (Exits 3) "a lot of text" "and more") req)
                (w_spawn (demo_world (Spawned (Exits 3) "" "")) req))
    by (intros req; reflexivity).
  split; [exact Hsame |].
  exact (proj2 (child_output_is_not_read _ _ Hsame)).
Defined.

(** ** More on the launcher's paths *)

Lemma startswith_sep_str (ps : list string) :
  startswith_sep (str (mkPath true ps)) = true.
Proof. reflexivity. Qed.

Lemma startswith_sep_sibling (dir name : string) :
  startswith_sep dir = true -> startswith_sep (sibling dir name) = true.
Proof.
  intros Hdir. unfold sibling.
  destruct (String.eqb dir "/"); [reflexivity |].
  destruct dir as [| c dir]; [discriminate | exact Hdir].
Qed.

(** X3: the two paths handed to the child are rooted, and they are the
    entries [llmpl_to_python.py] and [example_mvp.llmpl] of the very
    directory the child is started in. *)
Theorem arguments_lie_in_child_cwd (w : World) :
  exists req dir,
    spawn_requests (fst (run_demo w)) = [req] /\
    sp_cwd req = Some dir /\
    startswith_sep dir = true /\
    sp_args req =
      [w_executable w; sibling dir "llmpl_to_python.py";
       sibling dir "example_mvp.llmpl"; "--run"] /\
    startswith_sep (sibling dir "llmpl_to_python.py") = true /\
    startswith_sep (sibling dir "example_mvp.llmpl") = true.
Proof.
  exists (launch_request w), (str (root w)).
  rewrite trace_run_demo, spawn_requests_main.
  assert (Hdir : startswith_sep (str (root w)) = true)
    by (rewrite (root_eta w); apply startswith_sep_str).
  split; [reflexivity |].
  split; [reflexivity |].
  split; [exact Hdir |].
  split.
  - unfold launch_request, sys_executable. cbn [sp_args].
    now rewrite str_compiler, str_source.
  - split; now apply startswith_sep_sibling.
Qed.

Lemma removelast_Forall (P : string -> Prop) (l : list string) :
  Forall P l -> Forall P (removelast l).
Proof.
  induction l as [| x l IH]; intros H; [constructor |].
  inversion H; subst. destruct l as [| y l]; [constructor |].
  cbn [removelast]. constructor; [assumption | now apply IH].
Qed.

Lemma normparts_no_pardir (rest acc : list string) :
  Forall (fun n => n <> pardir) acc ->
  Forall (fun n => n <> pardir) (normparts acc rest).
Proof.
  revert acc.
  induction rest as [| n rest IH]; intros acc Hacc; cbn [normparts].
  - assumption.
  - destruct (String.eqb_spec n pardir) as [-> | Hn].
    + apply IH. now apply removelast_Forall.
    + apply IH. apply Forall_app. split; [assumption | now constructor].
Qed.

Lemma is_component_spec (n : string) :
  is_component n = true -> n <> "" /\ n <> curdir.
Proof.
  unfold is_component. intros H.
  apply negb_true_iff, orb_false_elim in H. destruct H as [He Hc].
  apply String.eqb_neq in He. apply String.eqb_neq in Hc. now split.
Qed.

Lemma root_normalised (w : World) :
  Forall (fun n => n <> "" /\ n <> curdir /\ n <> pardir) (parts (root w)).
Proof.
  pose proof (root_components w) as Hc.
  assert (Hp : Forall (fun n => n <> pardir) (parts (root w))).
  { unfold root, parent, resolve, realpath. cbn [parts].
    apply removelast_Forall, normparts_no_pardir. constructor. }
  unfold components in Hc. rewrite Forall_forall in *.
  intros n Hn. destruct (is_component_spec n (Hc n Hn)) as [He Hd].
  repeat split; try assumption. now apply Hp.
Qed.

(** X4: the anchor directory is a normalised path: none of its
    components is empty, ["."] or [".."], whatever [__file__], the
    working directory and the links look like; the same holds for the
    compiler path and the source path. *)
Theorem anchor_is_normalised (w : World) :
  Forall (fun n => n <> "" /\ n <> curdir /\ n <> pardir) (parts (root w)) /\
  Forall (fun n => n <> "" /\ n <> curdir /\ n <> pardir) (parts (compiler w)) /\
  Forall (fun n => n <> "" /\ n <> curdir /\ n <> pardir) (parts (source w)).
Proof.
  pose proof (root_normalised w) as Hroot.
  split; [exact Hroot |].
  rewrite compiler_eq, source_eq. cbn [parts].
  split; apply Forall_app; (split; [exact Hroot |]);
    constructor; try constructor; repeat split; discriminate.
Qed.

(** X5: the launcher checks the existence of nothing: in two worlds
    with the same [__file__], working directory and executable whose
    file systems show the same links, whatever files are there or
    missing (the compiler entry point among them), it makes the same
    spawn request. *)
Theorem no_existence_checks (w w' : World) :
  w_file w' = w_file w ->
  w_cwd w' = w_cwd w ->
  w_executable w' = w_executable w ->
  same_links (w_lstat w') (w_lstat w) ->
  launch_request w' = launch_request w /\
  spawn_requests (fst (run_demo w')) = spawn_requests (fst (run_demo w)).
Proof.
  intros Hfile Hcwd Hexe Hlinks.
  assert (Hreq : launch_request w' = launch_request w)
    by (apply launch_request_root; [now apply root_same_links | assumption]).
  split; [exact Hreq |].
  now rewrite !trace_run_demo, !spawn_requests_main, Hreq.
Qed.

Lemma same_links_broken : same_links broken_fs demo_fs.
Proof.
  intros p. unfold broken_fs.
  destruct (String.eqb_spec p "/opt/llmpl/mvp/llmpl_to_python.py") as [-> | _].
  - exact I.
  - apply same_links_refl.
Defined.

Lemma no_existence_checks_witness :
  w_lstat broken_world "/opt/llmpl/mvp/llmpl_to_python.py" = Missing /\
  w_lstat (demo_world (Spawned (Exits 0) "" "")) "/opt/llmpl/mvp/llmpl_to_python.py"
    = Regular /\
  launch_request broken_world = launch_request (demo_world (Spawned (Exits 0) "" "")).
Proof.
  split; [reflexivity |].
  split; [reflexivity |].
  exact (proj1 (no_existence_checks (demo_world (Spawned (Exits 0) "" "")) broken_world
                  eq_refl eq_refl eq_refl same_links_broken)).
Defined.

(** ** Path texts read back *)

Lemma split_slashless (s : string) :
  Forall (fun n => slashless n = true) (split s).
Proof.
  induction s as [| c s IH]; cbn [split].
  - now repeat constructor.
  - destruct (Ascii.eqb c sep) eqn:Ec.
    + now constructor.
    + destruct (split s) as [| h t].
      * constructor; [| constructor]. cbn [slashless]. now rewrite Ec.
      * inversion IH; subst. constructor; [| assumption].
        cbn [slashless]. now rewrite Ec.
Qed.

Lemma split_one (a : string) : slashless a = true -> split a = [a].
Proof.
  induction a as [| c a IH]; intros H; cbn [split]; [reflexivity |].
  cbn [slashless] in H. apply andb_prop in H. destruct H as [Hc Ha].
  apply negb_true_iff in Hc. now rewrite Hc, IH.
Qed.

Lemma split_append (a r : string) :
  slashless a = true -> split (a +++ String sep r) = a :: split r.
Proof.
  induction a as [| c a IH]; intros H.
  - reflexivity.
  - cbn [slashless] in H. apply andb_prop in H. destruct H as [Hc Ha].
    apply negb_true_iff in Hc.
    change (split (String c (a +++ String sep r)) = String c a :: split r).
    cbn [split]. now rewrite Hc, IH.
Qed.

Lemma split_join (ps : list string) :
  Forall (fun n => slashless n = true) ps -> ps <> [] -> split (join ps) = ps.
Proof.
  unfold join.
  induction ps as [| a ps IH]; intros Hall Hne; [congruence |].
  inversion Hall as [| ? ? Ha Hps]; subst.
  destruct ps as [| b ps].
  - now apply split_one.
  - change (String.concat "/" (a :: b :: ps))
      with (a +++ String sep (String.concat "/" (b :: ps))).
    rewrite split_append by assumption.
    now rewrite IH by (assumption || discriminate).
Qed.

Lemma filter_all (f : string -> bool) (l : list string) :
  Forall (fun n => f n = true) l -> filter f l = l.
Proof.
  induction 1 as [| x l Hx _ IH]; cbn [filter]; [reflexivity |].
  now rewrite Hx, IH.
Qed.

(** The text of a rooted path reads back as the path. *)
Lemma Path_str (ps : list string) :
  components ps ->
  Forall (fun n => slashless n = true) ps ->
  Path (str (mkPath true ps)) = mkPath true ps.
Proof.
  intros Hc Hs. unfold Path, str. cbn [absolute parts].
  change ("/" +++ join ps) with (String sep (join ps)).
  cbn [startswith_sep split]. rewrite Ascii.eqb_refl. f_equal.
  cbn [filter]. change (is_component "") with false. cbv iota.
  destruct ps as [| a ps].
  - reflexivity.
  - rewrite split_join by (assumption || discriminate).
    now apply filter_all.
Qed.

Section Preserved.

(** A property of components that [Path] establishes is kept by the
    whole resolution. *)
Variable P : string -> Prop.
Hypothesis P_Path : forall s, Forall P (parts (Path s)).

Lemma normparts_Forall (rest acc : list string) :
  Forall P acc -> Forall P rest -> Forall P (normparts acc rest).
Proof.
  revert acc.
  induction rest as [| n rest IH]; intros acc Hacc Hrest; cbn [normparts].
  - assumption.
  - inversion Hrest; subst.
    destruct (String.eqb n pardir).
    + apply IH; [now apply removelast_Forall | assumption].
    + apply IH; [| assumption].
      apply Forall_app. split; [assumption | now constructor].
Qed.

Lemma joinrealpath_Forall (lstat : string -> Node) (fuel : nat) :
  forall rest path,
    Forall P path -> Forall P rest ->
    Forall P (fst (joinrealpath lstat fuel path rest)).
Proof.
  induction fuel as [| fuel IHfuel];
    induction rest as [| name rest IH]; intros path Hpath Hrest.
  all: try (rewrite joinrealpath_nil; exact Hpath).
  all: rewrite joinrealpath_cons; inversion Hrest as [| ? ? Hname Hrest']; subst.
  all: assert (Hnew : Forall P (path ++ [name]))
         by (apply Forall_app; split; [assumption | now constructor]).
  all: destruct (String.eqb name pardir);
         [apply IH; [now apply removelast_Forall | assumption] |].
  all: destruct (lstat _) as [| | | target]; try (apply IH; assumption).
  - cbn [fst]. apply Forall_app. now split.
  - assert (Hstart : Forall P (if absolute (Path target) then [] else path))
      by (destruct (absolute (Path target)); [constructor | assumption]).
    specialize (IHfuel (parts (Path target)) _ Hstart (P_Path target)).
    destruct (joinrealpath lstat fuel _ (parts (Path target))) as [path' [|]];
      cbn [fst] in IHfuel.
    + apply IH; assumption.
    + cbn [fst]. apply Forall_app. now split.
Qed.

Lemma root_Forall (w : World) : Forall P (parts (root w)).
Proof.
  unfold root, parent, resolve, realpath. cbn [parts].
  apply removelast_Forall, normparts_Forall; [constructor |].
  apply joinrealpath_Forall; [| apply P_Path].
  destruct (absolute (Path (w_file w))); [constructor |].
  apply normparts_Forall; [constructor | apply P_Path].
Qed.

End Preserved.

Lemma Path_slashless (s : string) :
  Forall (fun n => slashless n = true) (parts (Path s)).
Proof.
  unfold Path. cbn [parts].
  pose proof (split_slashless s) as H. rewrite Forall_forall in *.
  intros n Hn. apply filter_In in Hn. now apply H.
Qed.

Lemma root_slashless (w : World) :
  Forall (fun n => slashless n = true) (parts (root w)).
Proof. apply root_Forall, Path_slashless. Qed.

(** X7: the texts the launcher hands over read back as the paths it
    computed: parsing the text of the anchor directory, of the
    compiler path and of the source path gives these paths again. *)
Theorem path_text_round_trip (w : World) :
  Path (str (root w)) = root w /\
  Path (str (compiler w)) = compiler w /\
  Path (str (source w)) = source w.
Proof.
  pose proof (root_components w) as Hc.
  pose proof (root_slashless w) as Hs.
  split; [| split].
  - rewrite (root_eta w). now apply Path_str.
  - rewrite compiler_eq. apply Path_str.
    + apply components_app; [assumption | now repeat constructor].
    + apply Forall_app. split; [assumption | now repeat constructor].
  - rewrite source_eq. apply Path_str.
    + apply components_app; [assumption | now repeat constructor].
    + apply Forall_app. split; [assumption | now repeat constructor].
Qed.

(** ** Canonical paths *)

Section Canonical.

Variable lstat : string -> Node.

Lemma plain_app (a b path : list string) :
  plain lstat path (a ++ b) = plain lstat path a && plain lstat (path ++ a) b.
Proof.
  revert path.
  induction a as [| name a IH]; intros path.
  - cbn [app plain andb]. now rewrite app_nil_r.
  - cbn [app plain]. rewrite IH, <- app_assoc. cbn [app].
    now rewrite !andb_assoc.
Qed.

(** A walk over links-free components adds them as they are. *)
Lemma plain_walk (fuel : nat) :
  forall rest path,
    plain lstat path rest = true ->
    joinrealpath lstat fuel path rest = (path ++ rest, true).
Proof.
  induction rest as [| name rest IH]; intros path H.
  - now rewrite joinrealpath_nil, app_nil_r.
  - cbn [plain] in H.
    apply andb_prop in H. destruct H as [H Hrest].
    apply andb_prop in H. destruct H as [Hname Hlink].
    apply negb_true_iff in Hname. apply negb_true_iff in Hlink.
    rewrite joinrealpath_cons, Hname.
    destruct (lstat _) as [| | | target]; try discriminate;
      rewrite (IH _ Hrest), <- app_assoc; reflexivity.
Qed.

Lemma plain_normparts (rest : list string) :
  forall acc path,
    plain lstat path rest = true -> normparts acc rest = acc ++ rest.
Proof.
  induction rest as [| name rest IH]; intros acc path H; cbn [normparts].
  - now rewrite app_nil_r.
  - cbn [plain] in H.
    apply andb_prop in H. destruct H as [H Hrest].
    apply andb_prop in H. destruct H as [Hname _].
    apply negb_true_iff in Hname. rewrite Hname.
    rewrite (IH _ _ Hrest), <- app_assoc. reflexivity.
Qed.

Lemma canonical_removelast (ps : list string) :
  canonical lstat ps = true -> canonical lstat (removelast ps) = true.
Proof.
  unfold canonical. intros H.
  destruct ps as [| a l]; [exact H |].
  rewrite (app_removelast_last "" (l := a :: l)) in H by discriminate.
  rewrite plain_app in H. now apply andb_prop in H.
Qed.

Lemma canonical_snoc (path : list string) (name : string) :
  canonical lstat path = true ->
  String.eqb name pardir = false ->
  is_symlink (lstat (str (mkPath true (path ++ [name])))) = false ->
  canonical lstat (path ++ [name]) = true.
Proof.
  unfold canonical. intros Hpath Hname Hlink.
  rewrite plain_app, Hpath. cbn [app plain andb].
  now rewrite Hname, Hlink.
Qed.

(** A walk that starts at a canonical path and comes to its end ends
    at a canonical path. *)
Lemma joinrealpath_canonical (fuel : nat) :
  forall rest path res,
    canonical lstat path = true ->
    joinrealpath lstat fuel path rest = (res, true) ->
    canonical lstat res = true.
Proof.
  induction fuel as [| fuel IHfuel];
    induction rest as [| name rest IH]; intros path res Hpath H.
  all: try (rewrite joinrealpath_nil in H; injection H as <-; exact Hpath).
  all: rewrite joinrealpath_cons in H.
  all: destruct (String.eqb name pardir) eqn:Hname;
         [apply (IH (removelast path)); [now apply canonical_removelast | exact H] |].
  all: destruct (lstat (str (mkPath true (path ++ [name])))) as [| | | target] eqn:Hnode.
  all: try (apply (IH (path ++ [name])); [| exact H];
            apply canonical_snoc; [assumption | assumption | now rewrite Hnode]).
  - discriminate.
  - destruct (joinrealpath lstat fuel _ (parts (Path target)))
      as [path' [|]] eqn:E; [| discriminate].
    apply (IH path'); [| exact H].
    apply (IHfuel (parts (Path target))
             (if absolute (Path target) then [] else path)); [| exact E].
    destruct (absolute (Path target)); [reflexivity | assumption].
Qed.

End Canonical.

Lemma resolve_canonical (w : World) (ps : list string) :
  canonical (w_lstat w) ps = true ->
  resolve w (mkPath true ps) = mkPath true ps.
Proof.
  intros H. unfold resolve, realpath. cbn [absolute parts].
  unfold canonical in H.
  rewrite (plain_walk _ _ _ _ H). cbn [fst app].
  now rewrite (plain_normparts _ _ _ _ H).
Qed.

(** X8: when the walk over the launcher's [__file__] came to its end
    (from a rooted name, or from the canonical working directory that
    [getcwd] returns), the anchor directory is canonical: no component
    of it is a link, and resolving it again, also from the text the
    child is given as its working directory, returns it unchanged. *)
Theorem anchor_is_canonical (w : World) :
  resolved w = true ->
  absolute (Path (w_file w)) = true \/ cwd_canonical w = true ->
  canonical (w_lstat w) (parts (root w)) = true /\
  resolve w (root w) = root w /\
  resolve w (Path (str (root w))) = root w.
Proof.
  intros Hok Hstart.
  assert (Hcan : canonical (w_lstat w) (parts (root w)) = true).
  { unfold root, parent, resolve, realpath. cbn [parts].
    unfold resolved in Hok. cbv zeta in Hok.
    destruct (joinrealpath (w_lstat w) MAXSYMLINKS
                (if absolute (Path (w_file w)) then []
                 else normparts [] (parts (Path (w_cwd w))))
                (parts (Path (w_file w)))) as [res ok] eqn:E.
    cbn [snd] in Hok. subst ok. cbn [fst].
    assert (Hres : canonical (w_lstat w) res = true).
    { apply (joinrealpath_canonical (w_lstat w) MAXSYMLINKS
               (parts (Path (w_file w)))
               (if absolute (Path (w_file w)) then []
                else normparts [] (parts (Path (w_cwd w))))); [| exact E].
      destruct Hstart as [Habs | Hcwd].
      - now rewrite Habs.
      - destruct (absolute (Path (w_file w))); [reflexivity | exact Hcwd]. }
    unfold canonical in Hres.
    rewrite (plain_normparts _ _ _ _ Hres). cbn [app].
    now apply canonical_removelast. }
  split; [exact Hcan |].
  assert (Hres : resolve w (root w) = root w)
    by (rewrite (root_eta w); now apply resolve_canonical).
  split; [exact Hres |].
  rewrite (root_eta w), Path_str.
  - now apply resolve_canonical.
  - apply root_components.
  - apply root_slashless.
Qed.

Lemma anchor_is_canonical_witness :
  resolved (demo_world_rel (Spawned (Exits 0) "" "")) = true /\
  cwd_canonical (demo_world_rel (Spawned (Exits 0) "" "")) = true /\
  str (root (demo_world_rel (Spawned (Exits 0) "" ""))) = "/opt/llmpl/mvp" /\
  resolve (demo_world_rel (Spawned (Exits 0) "" ""))
          (Path (str (root (demo_world_rel (Spawned (Exits 0) "" "")))))
    = root (demo_world_rel (Spawned (Exits 0) "" "")).
Proof.
  split; [reflexivity |].
  split; [reflexivity |].
  split; [reflexivity |].
  exact (proj2 (proj2 (anchor_is_canonical (demo_world_rel (Spawned (Exits 0) "" ""))
                         eq_refl (or_intror eq_refl)))).
Defined.

(** ** The same launcher, started in other ways *)

Lemma realpath_with_file (w : World) (f : string) (p : PurePath) :
  realpath (with_file w f) p = realpath w p.
Proof. reflexivity. Qed.

Lemma launch_request_location (w w' : World) :
  resolve w' (Path (w_file w')) = resolve w (Path (w_file w)) ->
  w_executable w' = w_executable w ->
  launch_request w' = launch_request w.
Proof.
  intros Hloc Hexe. apply launch_request_root; [| exact Hexe].
  unfold root. now rewrite Hloc.
Qed.

(** X9: a launcher started by a relative [__file__] from the canonical
    working directory makes the same spawn request as one started by
    the rooted name that the working directory makes of it. *)
Theorem relative_start_same_request (w : World) :
  absolute (Path (w_file w)) = false ->
  cwd_canonical w = true ->
  launch_request
    (with_file w
       (str (mkPath true (normparts [] (parts (Path (w_cwd w)))
                            ++ parts (Path (w_file w))))))
  = launch_request w.
Proof.
  intros Hrel Hcwd.
  set (cwd := normparts [] (parts (Path (w_cwd w)))).
  set (ps := parts (Path (w_file w))).
  apply launch_request_location; [| reflexivity].
  cbn [with_file w_file].
  assert (Hparse : Path (str (mkPath true (cwd ++ ps))) = mkPath true (cwd ++ ps)).
  { apply Path_str.
    - apply components_app; [| apply components_Path].
      apply components_normparts; [constructor | apply components_Path].
    - apply Forall_app. split; [| apply Path_slashless].
      apply normparts_Forall; [constructor | apply Path_slashless]. }
  rewrite Hparse. unfold resolve. f_equal.
  rewrite realpath_with_file.
  assert (Hfile : Path (w_file w) = mkPath false ps)
    by (unfold ps; destruct (Path (w_file w)) as [a l]; cbn in *; now subst a).
  rewrite Hfile. symmetry. apply realpath_relative.
  unfold cwd_canonical, canonical in Hcwd.
  now rewrite (plain_walk _ _ _ _ Hcwd).
Qed.

Lemma relative_start_same_request_witness :
  absolute (Path (w_file (demo_world_rel (Spawned (Exits 0) "" "")))) = false /\
  cwd_canonical (demo_world_rel (Spawned (Exits 0) "" "")) = true /\
  launch_request
    (with_file (demo_world_rel (Spawned (Exits 0) "" "")) "/opt/current/run_demo.py")
  = launch_request (demo_world_rel (Spawned (Exits 0) "" "")).
Proof.
  split; [reflexivity |].
  split; [reflexivity |].
  exact (relative_start_same_request (demo_world_rel (Spawned (Exits 0) "" ""))
           eq_refl eq_refl).
Defined.

(** X10: a launcher started through a link, in a canonical directory,
    whose target is a rooted name that resolves, makes the same spawn
    request as one started by that target. *)
Theorem link_start_same_request (w : World) (dir : list string)
    (name target : string) :
  Path (w_file w) = mkPath true (dir ++ [name]) ->
  canonical (w_lstat w) dir = true ->
  String.eqb name pardir = false ->
  w_lstat w (str (mkPath true (dir ++ [name]))) = Symlink target ->
  absolute (Path target) = true ->
  snd (joinrealpath (w_lstat w) (pred MAXSYMLINKS) [] (parts (Path target))) = true ->
  launch_request w = launch_request (with_file w target).
Proof.
  intros Hfile Hdir Hname Hlink Habs Hok.
  symmetry. apply launch_request_location; [| reflexivity].
  cbn [with_file w_file]. rewrite Hfile. unfold resolve. f_equal.
  rewrite realpath_with_file. symmetry.
  destruct (joinrealpath (w_lstat w) (pred MAXSYMLINKS) [] (parts (Path target)))
    as [res ok] eqn:E.
  cbn [snd] in Hok. subst ok.
  apply (realpath_follows_link w dir dir name target res); try assumption.
  unfold canonical in Hdir. now rewrite (plain_walk _ _ _ _ Hdir).
Qed.

Lemma link_start_same_request_witness :
  w_lstat (demo_world_link (Spawned (Exits 0) "" "")) "/usr/local/bin/llmpl-demo"
    = Symlink "/opt/llmpl/mvp/run_demo.py" /\
  launch_request (demo_world_link (Spawned (Exits 0) "" ""))
  = launch_request (with_file (demo_world_link (Spawned (Exits 0) "" ""))
                      "/opt/llmpl/mvp/run_demo.py").
Proof.
  split; [reflexivity |].
  exact (link_start_same_request (demo_world_link (Spawned (Exits 0) "" ""))
           ["usr"; "local"; "bin"] "llmpl-demo" "/opt/llmpl/mvp/run_demo.py"
           eq_refl eq_refl eq_refl eq_refl eq_refl eq_refl).
Defined.

(** ** The directory the child is started in *)

Lemma root_of_location (w : World) (dir : list string) (name : string) :
  realpath w (Path (w_file w)) = dir ++ [name] ->
  root w = mkPath true dir.
Proof.
  intros H. unfold root, resolve. rewrite H. apply parent_snoc.
Qed.

(** C4 (working directory): every invocation asks for its one child to
    be started in the anchor directory, the directory that holds the
    launcher's own file: for a launcher started by the rooted name of
    its file it is the directory part of that name; for one started by
    a relative name it is the directory part of that name taken from
    the working directory; for one started through a link it is the
    directory of the file the link points to. *)
Theorem child_working_directory (w : World) :
  exists req,
    spawn_requests (fst (run_demo w)) = [req] /\
    sp_cwd req = Some (str (root w)) /\
    root w = parent (resolve w (Path (w_file w))) /\
    (parts (resolve w (Path (w_file w))) = [] \/
     exists name,
       resolve w (Path (w_file w)) = mkPath true (parts (root w) ++ [name])) /\
    (forall dir name,
        Path (w_file w) = mkPath true (dir ++ [name]) ->
        canonical (w_lstat w) (dir ++ [name]) = true ->
        sp_cwd req = Some (str (mkPath true dir))) /\
    (forall ps name,
        Path (w_file w) = mkPath false (ps ++ [name]) ->
        canonical (w_lstat w)
          (normparts [] (parts (Path (w_cwd w))) ++ ps ++ [name]) = true ->
        sp_cwd req =
          Some (str (mkPath true (normparts [] (parts (Path (w_cwd w))) ++ ps)))) /\
    (forall dir name target tdir tname,
        Path (w_file w) = mkPath true (dir ++ [name]) ->
        canonical (w_lstat w) dir = true ->
        String.eqb name pardir = false ->
        w_lstat w (str (mkPath true (dir ++ [name]))) = Symlink target ->
        Path target = mkPath true (tdir ++ [tname]) ->
        canonical (w_lstat w) (tdir ++ [tname]) = true ->
        sp_cwd req = Some (str (mkPath true tdir))).
Proof.
  exists (launch_request w).
  rewrite trace_run_demo, spawn_requests_main.
  repeat (split; [reflexivity |]).
  split; [| split; [| split]].
  - unfold root, parent, resolve. cbn [parts absolute].
    destruct (realpath w (Path (w_file w))) as [| a l] eqn:E; [now left | right].
    exists (last (a :: l) "").
    now rewrite <- app_removelast_last by discriminate.
  - intros dir name Hfile Hcan. cbn [launch_request sp_cwd].
    rewrite (root_of_location w dir name); [reflexivity |].
    rewrite Hfile.
    pose proof (resolve_canonical w _ Hcan) as Hres.
    unfold resolve in Hres. now injection Hres.
  - intros ps name Hfile Hcan. cbn [launch_request sp_cwd].
    set (cwd := normparts [] (parts (Path (w_cwd w)))) in *.
    rewrite (root_of_location w (cwd ++ ps) name); [reflexivity |].
    rewrite Hfile. unfold realpath. cbn [absolute parts]. fold cwd.
    unfold canonical in Hcan.
    pose proof Hcan as Hsplit. rewrite plain_app in Hsplit.
    apply andb_prop in Hsplit. destruct Hsplit as [_ Hrest].
    cbn [app] in Hrest.
    rewrite (plain_walk _ _ _ _ Hrest). cbn [fst].
    rewrite (plain_normparts _ _ _ _ Hcan). cbn [app].
    now rewrite app_assoc.
  - intros dir name target tdir tname Hfile Hdir Hname Hlink Htarget Hcan.
    cbn [launch_request sp_cwd].
    rewrite (root_of_location w tdir tname); [reflexivity |].
    rewrite Hfile.
    assert (Habs : absolute (Path target) = true) by now rewrite Htarget.
    unfold canonical in Hdir, Hcan.
    rewrite (realpath_follows_link w dir dir name target (tdir ++ [tname]));
      try assumption.
    + rewrite Htarget.
      pose proof (resolve_canonical w _ Hcan) as Hres.
      unfold resolve in Hres. now injection Hres.
    + now rewrite (plain_walk _ _ _ _ Hdir).
    + rewrite Htarget. cbn [parts]. now rewrite (plain_walk _ _ _ _ Hcan).
Qed.

Lemma child_working_directory_witness :
  (exists req,
     spawn_requests (fst (run_demo (demo_world (Spawned (Exits 0) "" "")))) = [req] /\
     sp_cwd req = Some "/opt/llmpl/mvp") /\
  (exists req,
     spawn_requests (fst (run_demo
        (with_cwd (with_file (demo_world (Spawned (Exits 0) "" "")) "mvp/run_demo.py")
                  "/opt/llmpl"))) = [req] /\
     sp_cwd req = Some "/opt/llmpl/mvp") /\
  (exists req,
     spawn_requests (fst (run_demo (demo_world_link (Spawned (Exits 0) "" "")))) = [req] /\
     sp_cwd req = Some "/opt/llmpl/mvp").
Proof.
  split; [| split].
  - destruct (child_working_directory (demo_world (Spawned (Exits 0) "" "")))
      as (req & Htrace & _ & _ & _ & Hdirect & _ & _).
    exists req. split; [exact Htrace |].
    exact (Hdirect ["opt"; "llmpl"; "mvp"] "run_demo.py" eq_refl eq_refl).
  - destruct (child_working_directory
                (with_cwd (with_file (demo_world (Spawned (Exits 0) "" ""))
                             "mvp/run_demo.py") "/opt/llmpl"))
      as (req & Htrace & _ & _ & _ & _ & Hrelative & _).
    exists req. split; [exact Htrace |].
    exact (Hrelative ["mvp"] "run_demo.py" eq_refl eq_refl).
  - destruct (child_working_directory (demo_world_link (Spawned (Exits 0) "" "")))
      as (req & Htrace & _ & _ & _ & _ & _ & Hlink).
    exists req. split; [exact Htrace |].
    exact (Hlink ["usr"; "local"; "bin"] "llmpl-demo" "/opt/llmpl/mvp/run_demo.py"
             ["opt"; "llmpl"; "mvp"] "run_demo.py"
             eq_refl eq_refl eq_refl eq_refl eq_refl eq_refl).
Defined.
